(** * The sheet parser of [lambda_function.py]

    A shallow embedding of the per-sheet pass of [lambda_handler]
    (src/lambda_function.py, lines 80-212): the row cleaning, and the
    stateful loop that classifies each cleaned row as a new section, a table
    header, a table record, key/value metadata or a row without section.

    Python values are dynamically typed, and the loop asks for the run-time
    type of what it finds in the result dictionary ([isinstance], [.append],
    [.extend]).  The embedding keeps that: the result is a [gmap] from text to
    a universal value type [pyval], and an operation applied to a value of the
    wrong shape raises, as it does in Python.  The [logging] calls do not
    touch the state and are left out. *)

From Stdlib Require Import ZArith NArith String Ascii DecimalString.
From stdpp Require Import gmap list.

#[local] Set Warnings "-register-all".

(** ** Text *)

(** A Python [str] is a sequence of Unicode code points. *)
Abbreviation pystr := (list N).

(** A literal of the source, written in ASCII. *)
Definition lit (s : string) : pystr :=
  N_of_ascii <$> list_ascii_of_string s.

Module Str.

#[local] Open Scope N_scope.

(** The characters [str.strip()] removes: those for which
    [str.isspace()] holds. *)
Definition is_space (c : N) : bool :=
  ((9 <=? c) && (c <=? 13)) || ((28 <=? c) && (c <=? 32))
  || (c =? 133) || (c =? 160) || (c =? 5760)
  || ((8192 <=? c) && (c <=? 8202))
  || (c =? 8232) || (c =? 8233) || (c =? 8239) || (c =? 8287)
  || (c =? 12288).

Fixpoint lstrip (s : pystr) : pystr :=
  match s with
  | c :: s' => if is_space c then lstrip s' else s
  | [] => []
  end.

Definition rstrip (s : pystr) : pystr := rev (lstrip (rev s)).

(** [s.strip()] *)
Definition strip (s : pystr) : pystr := rstrip (lstrip s).

(** [str.lower()] on one code point.  The table covers ASCII and the
    Latin-1 supplement (U+0000 to U+00FF), which is where the literals of
    the source live; code points beyond are left as they are. *)
Definition lower_char (c : N) : N :=
  if ((65 <=? c) && (c <=? 90))
     || ((192 <=? c) && (c <=? 222) && negb (c =? 215))
  then c + 32 else c.

(** [s.lower()] *)
Definition lower (s : pystr) : pystr := lower_char <$> s.

(** [s.replace(" ", "_")] *)
Definition replace_space (s : pystr) : pystr :=
  (fun c => if c =? 32 then 95 else c) <$> s.

(** [s.strip().lower().replace(" ", "_")], the normalization of keys,
    headers and section names. *)
Definition normalize (s : pystr) : pystr :=
  replace_space (lower (strip s)).

(** [s.endswith(suf)] *)
Definition endswith (s suf : pystr) : bool :=
  bool_decide (drop (length s - length suf)%nat s = suf).

(** [str(z)] for an [int]. *)
Definition of_Z (z : Z) : pystr := lit (NilZero.string_of_int (Z.to_int z)).

(** [s.strip() != ""] *)
Definition non_blank (s : pystr) : bool :=
  match strip s with [] => false | _ :: _ => true end.

End Str.

(** ** Cell values *)

(** What a cell of the workbook holds: text, a number, a temporal value or
    nothing.  The parser looks at a float or at a temporal value only through
    its type and through [str()], so these two carry their [str()] text. *)
Inductive cell :=
| CText (s : pystr)
| CInt (z : Z)
| CFloat (repr : pystr)
| CTemporal (repr : pystr)
| CNone.

#[global] Instance cell_eq_dec : EqDecision cell.
Proof. solve_decision. Defined.

(** [str(c)] *)
Definition str (c : cell) : pystr :=
  match c with
  | CText s => s
  | CInt z => Str.of_Z z
  | CFloat r => r
  | CTemporal r => r
  | CNone => lit "None"
  end.

(** [isinstance(c, str)] *)
Definition is_str (c : cell) : bool :=
  match c with CText _ => true | _ => false end.

(** [isinstance(c, (int, float))] *)
Definition is_number (c : cell) : bool :=
  match c with CInt _ | CFloat _ => true | _ => false end.

(** [c is not None and str(c).strip() != ""] *)
Definition has_content (c : cell) : bool :=
  match c with CNone => false | _ => Str.non_blank (str c) end.

(** ** Row cleaning (lines 80-86) *)

(** The filter of the list comprehension of line 84:
    [cell is not None and (isinstance(cell, str) and cell.strip() != ""
     or not isinstance(cell, str))]. *)
Definition keep_cell (c : cell) : bool :=
  match c with
  | CNone => false
  | CText s => Str.non_blank s
  | _ => true
  end.

Definition cleaned_row (row : list cell) : list cell :=
  List.filter keep_cell row.

(** [filas_crudas]: the cleaned rows that are not empty. *)
Fixpoint filas_crudas (rows : list (list cell)) : list (list cell) :=
  match rows with
  | [] => []
  | row :: rows' =>
      match cleaned_row row with
      | [] => filas_crudas rows'
      | c :: cs => (c :: cs) :: filas_crudas rows'
      end
  end.

(** ** Python values and exceptions *)

Inductive pyval :=
| PCell (c : cell)
| PList (l : list pyval)
| PDict (m : gmap pystr pyval).

Inductive exn := AttributeError | KeyError.

Inductive result (A : Type) :=
| Ok (a : A)
| Raise (e : exn).
Arguments Ok {A} a.
Arguments Raise {A} e.

#[global] Instance result_ret : MRet result := fun _ a => Ok a.

#[global] Instance result_bind : MBind result := fun _ _ k r =>
  match r with
  | Ok a => k a
  | Raise e => Raise e
  end.

(** A row stored as it is: a list of its cells. *)
Definition row_value (fila : list cell) : pyval := PList (PCell <$> fila).

(** ** The state of the loop (lines 88-92) *)

Record state := State {
  datos_estructurados : gmap pystr pyval;
  seccion_actual : option pystr;
  seccion_id : Z;
  current_table_headers : list pystr;
  is_in_table_section : bool }.

Definition initial : state :=
  State ∅ None 1 [] false.

(** The truth value of [seccion_actual]: [None] and the empty text are
    false. *)
Definition open_section (st : state) : option pystr :=
  match seccion_actual st with
  | Some (c :: s) => Some (c :: s)
  | _ => None
  end.

Definition SIN_SECCION : pystr := lit "sin_seccion".
Definition VALORES_MISCELANEOS : pystr := lit "valores_miscelaneos".
Definition VALORES : pystr := lit "valores".

(** The section names of line 122, for which a header is taken without
    looking at the next row. *)
Definition table_sections : list pystr :=
  [ lit "error_de_relaci" ++ [243%N]
      ++ lit "n_de_corriente_en_%_a_%_de_corriente_nominal";
    lit "fase_en_min_a_%_de_la_corriente_nominal";
    lit "datos_medidos" ].

(** The texts of line 157, never taken as a key. *)
Definition low_information : list pystr :=
  [ lit "ok"; lit "si"; lit "no"; lit "desactivado";
    lit "protecci" ++ [243%N] ++ lit "n";
    lit "ubicaci" ++ [243%N] ++ lit "n";
    lit "colombia"; lit "g3.2" ].

(** The suffixes of line 159. *)
Definition label_suffixes : list pystr :=
  [ lit "_id"; lit "_name"; lit "_code" ].

(** ** Operations on the result dictionary *)

(** [datos.setdefault(k, []).append(x)] *)
Definition setdefault_append (k : pystr) (x : pyval)
    (datos : gmap pystr pyval) : result (gmap pystr pyval) :=
  match datos !! k with
  | None => Ok (<[k := PList [x]]> datos)
  | Some (PList l) => Ok (<[k := PList (l ++ [x])]> datos)
  | Some _ => Raise AttributeError
  end.

(** [datos[k].append(x)] *)
Definition item_append (k : pystr) (x : pyval)
    (datos : gmap pystr pyval) : result (gmap pystr pyval) :=
  match datos !! k with
  | None => Raise KeyError
  | Some (PList l) => Ok (<[k := PList (l ++ [x])]> datos)
  | Some _ => Raise AttributeError
  end.

(** [isinstance(datos.get(k), list)] *)
Definition is_list_at (k : pystr) (datos : gmap pystr pyval) : bool :=
  match datos !! k with Some (PList _) => true | _ => false end.

Definition set_datos (st : state) (datos : gmap pystr pyval) : state :=
  State datos (seccion_actual st) (seccion_id st)
        (current_table_headers st) (is_in_table_section st).

Definition nonempty {A} (l : list A) : bool :=
  match l with [] => false | _ :: _ => true end.

(** ** Classification of a row (lines 96-128) *)

(** How the first part of the loop body ends: [Continue] is the [continue]
    of lines 102 and 128, [Fall] goes on to line 131. *)
Inductive flow :=
| Continue (st : state)
| Fall (st : state).

(** Lines 97-111, for a row [fila] whose only cell is [c]. *)
Definition nueva_seccion (fila : list cell) (c : cell) (st : state)
    : result flow :=
  let nombre := Str.strip (str c) in
  let key := Str.replace_space (Str.lower nombre) in
  if bool_decide (key = SIN_SECCION) && bool_decide (open_section st = None)
  then
    datos ← setdefault_append SIN_SECCION (row_value fila)
                              (datos_estructurados st);
    Ok (Continue (set_datos st datos))
  else
    let taken := bool_decide (is_Some (datos_estructurados st !! key)) in
    let key' :=
      if taken then key ++ lit "_" ++ Str.of_Z (seccion_id st) else key in
    let seccion_id' :=
      if taken then (seccion_id st + 1)%Z else seccion_id st in
    Ok (Fall (State (<[key' := PDict ∅]> (datos_estructurados st))
                    (Some key') seccion_id' [] false)).

(** Lines 115-120, on the row that follows. *)
Definition next_row_is_likely_data (next_fila : list cell) : bool :=
  nonempty next_fila && existsb has_content next_fila
  && negb match next_fila with
          | [CText s] => negb (bool_decide (Str.normalize s ∈ [SIN_SECCION]))
          | _ => false
          end.

(** Lines 114-128, for a row that has not exactly one cell; [rest] holds the
    rows after it, so [i < len(filas_crudas) - 1] says that [rest] is not
    empty and [filas_crudas[i+1]] is its head. *)
Definition cabeceras (fila : list cell) (rest : list (list cell))
    (st : state) : flow :=
  match open_section st with
  | Some sec =>
      if (1 <? length fila)%nat && forallb is_str fila && nonempty rest then
        let next_fila := hd [] rest in
        if next_row_is_likely_data next_fila
           || (bool_decide (sec ∈ table_sections)
               && negb (nonempty (current_table_headers st)))
        then
          let headers := (fun c => Str.normalize (str c)) <$> fila in
          let datos :=
            if is_list_at sec (datos_estructurados st)
            then datos_estructurados st
            else <[sec := PList []]> (datos_estructurados st) in
          Continue (State datos (seccion_actual st) (seccion_id st)
                          headers true)
        else Fall st
      else Fall st
  | None => Fall st
  end.

Definition clasificar (fila : list cell) (rest : list (list cell))
    (st : state) : result flow :=
  match fila with
  | [c] => nueva_seccion fila c st
  | _ => Ok (cabeceras fila rest st)
  end.

(** ** Table rows (lines 133-144) *)

(** The loop of lines 134-138, from position [idx] on. *)
Fixpoint fill_row (idx : nat) (headers : list pystr) (fila : list cell)
    (row_data : gmap pystr cell) : gmap pystr cell :=
  match headers with
  | [] => row_data
  | header :: headers' =>
      fill_row (S idx) headers' fila
               (<[header := default CNone (fila !! idx)]> row_data)
  end.

Definition row_data_of (headers : list pystr) (fila : list cell)
    : gmap pystr cell :=
  fill_row 0 headers fila ∅.

(** [any(value is not None and str(value).strip() != ""
         for value in row_data.values())] *)
Definition any_content (row_data : gmap pystr cell) : bool :=
  existsb has_content (map_to_list row_data).*2.

Definition fila_de_tabla (sec : pystr) (headers : list pystr)
    (fila : list cell) (datos : gmap pystr pyval)
    : result (gmap pystr pyval) :=
  let row_data := row_data_of headers fila in
  if any_content row_data
  then item_append sec (PDict (PCell <$> row_data)) datos
  else Ok datos.

(** ** Key/value rows inside a section (lines 148-180) *)

(** The test of lines 155-159. *)
Definition clave_invalida (key_candidate value_candidate : cell) : bool :=
  is_number key_candidate
  || (is_str key_candidate
      && ((50 <? length (str key_candidate))%nat
          || bool_decide (Str.lower (Str.strip (str key_candidate))
                          ∈ low_information)
          || bool_decide (Str.strip (str key_candidate) = [])
          || (bool_decide (value_candidate = CNone)
              && negb (existsb
                         (Str.endswith
                            (Str.lower (Str.strip (str key_candidate))))
                         label_suffixes)))).

(** One turn of the [while True] of line 151, lines 155-173. *)
Definition par (sec : pystr) (key_candidate value_candidate : cell)
    (datos : gmap pystr pyval) (subdata : gmap pystr cell)
    : result (gmap pystr pyval * gmap pystr cell) :=
  if clave_invalida key_candidate value_candidate then
    match datos !! sec with
    | Some (PDict d) =>
        match d !! VALORES_MISCELANEOS with
        | None =>
            Ok (<[sec := PDict (<[VALORES_MISCELANEOS :=
                   PList [PCell key_candidate; PCell value_candidate]]> d)]>
                  datos, subdata)
        | Some (PList l) =>
            Ok (<[sec := PDict (<[VALORES_MISCELANEOS :=
                   PList (l ++ [PCell key_candidate; PCell value_candidate])]>
                   d)]> datos, subdata)
        | Some _ => Raise AttributeError
        end
    | _ =>
        datos' ← item_append sec
          (PDict {[VALORES_MISCELANEOS :=
                     PList [PCell key_candidate; PCell value_candidate]]})
          datos;
        Ok (datos', subdata)
    end
  else
    let key := Str.normalize (str key_candidate) in
    match datos !! sec with
    | Some (PDict _) => Ok (datos, <[key := value_candidate]> subdata)
    | _ =>
        datos' ← item_append sec (PDict {[key := PCell value_candidate]})
                             datos;
        Ok (datos', subdata)
    end.

(** The [while True] loop over [it = iter(fila)], two cells a turn;
    [next(it, None)] gives [None] for a missing last value. *)
Fixpoint pares (sec : pystr) (fila : list cell)
    (datos : gmap pystr pyval) (subdata : gmap pystr cell)
    : result (gmap pystr pyval * gmap pystr cell) :=
  match fila with
  | [] => Ok (datos, subdata)
  | [key_candidate] => par sec key_candidate CNone datos subdata
  | key_candidate :: value_candidate :: fila' =>
      '(datos', subdata') ← par sec key_candidate value_candidate
                                datos subdata;
      pares sec fila' datos' subdata'
  end.

(** Lines 178-180. *)
Definition update_subdata (sec : pystr) (subdata : gmap pystr cell)
    (datos : gmap pystr pyval) : gmap pystr pyval :=
  if bool_decide (subdata = ∅) then datos
  else match datos !! sec with
       | Some (PDict d) => <[sec := PDict ((PCell <$> subdata) ∪ d)]> datos
       | _ => datos
       end.

Definition fila_de_pares (sec : pystr) (fila : list cell)
    (datos : gmap pystr pyval) : result (gmap pystr pyval) :=
  '(datos', subdata) ← pares sec fila datos ∅;
  Ok (update_subdata sec subdata datos').

(** ** Rows before any section (lines 184-210) *)

(** The loop of lines 191-200; the boolean is [is_key_value_pair]. *)
Fixpoint pares_sin_seccion (fila : list cell) (temp_dict : gmap pystr cell)
    (is_key_value_pair : bool) : gmap pystr cell * bool :=
  match fila with
  | [] => (temp_dict, is_key_value_pair)
  | [key_candidate] =>
      if is_str key_candidate && Str.non_blank (str key_candidate)
      then (<[Str.normalize (str key_candidate) := CNone]> temp_dict, true)
      else (temp_dict, false)
  | key_candidate :: value_candidate :: fila' =>
      if is_str key_candidate && Str.non_blank (str key_candidate)
      then pares_sin_seccion fila'
             (<[Str.normalize (str key_candidate) := value_candidate]>
                temp_dict) true
      else (temp_dict, false)
  end.

Definition subdata_sin_seccion (fila : list cell) : pyval :=
  if Nat.even (length fila) then
    let '(temp_dict, is_key_value_pair) := pares_sin_seccion fila ∅ false in
    if is_key_value_pair && negb (bool_decide (temp_dict = ∅))
    then PDict (PCell <$> temp_dict)
    else PDict {[VALORES := row_value fila]}
  else PDict {[VALORES := row_value fila]}.

(** ** The loop body and the loop (lines 94-210) *)

(** Lines 131-210. *)
Definition procesar (fila : list cell) (st : state) : result state :=
  match open_section st with
  | Some sec =>
      if is_in_table_section st && nonempty (current_table_headers st) then
        datos ← fila_de_tabla sec (current_table_headers st) fila
                              (datos_estructurados st);
        Ok (set_datos st datos)
      else
        datos ← fila_de_pares sec fila (datos_estructurados st);
        Ok (set_datos st datos)
  | None =>
      datos ← setdefault_append SIN_SECCION (subdata_sin_seccion fila)
                                (datos_estructurados st);
      Ok (set_datos st datos)
  end.

(** One turn of [for i, fila in enumerate(filas_crudas)]; [rest] is
    [filas_crudas[i+1:]]. *)
Definition turno (fila : list cell) (rest : list (list cell)) (st : state)
    : result state :=
  f ← clasificar fila rest st;
  match f with
  | Continue st' => Ok st'
  | Fall st' => procesar fila st'
  end.

Fixpoint recorrer (filas : list (list cell)) (st : state) : result state :=
  match filas with
  | [] => Ok st
  | fila :: rest => st' ← turno fila rest st; recorrer rest st'
  end.

(** [datos_estructurados] of a sheet whose cleaned rows are [filas]. *)
Definition estructurar (filas : list (list cell))
    : result (gmap pystr pyval) :=
  st ← recorrer filas initial; Ok (datos_estructurados st).

(** The same from the rows of the sheet as they are read (lines 80-212). *)
Definition procesar_hoja (rows : list (list cell))
    : result (gmap pystr pyval) :=
  estructurar (filas_crudas rows).

(** ** The claims in the words of the specification

    Two definitions that follow the specification, not the code; the
    theorems below compare them with the code. *)





(** Text cells of the examples. *)
Definition T (s : string) : cell := CText (lit s).

(** ** Notions used in the statements *)


(** The list under [valores_miscelaneos] of a section mapping, empty when
    the key is not there. *)
Definition misc_of (d : gmap pystr pyval) : list pyval :=
  match d !! VALORES_MISCELANEOS with
  | Some (PList l) => l
  | _ => []
  end.

(** [valores_miscelaneos], where present, holds a list. *)
Definition misc_is_list (d : gmap pystr pyval) : Prop :=
  ∀ x, d !! VALORES_MISCELANEOS = Some x → ∃ l, x = PList l.

(** The rows of the [sin_seccion] bucket, none when the key is not there. *)
Definition bucket_of (datos : gmap pystr pyval) : list pyval :=
  match datos !! SIN_SECCION with
  | Some (PList l) => l
  | _ => []
  end.

(** [sin_seccion], where present, is the bucket and not a section. *)
Definition bucket_is_list (datos : gmap pystr pyval) : Prop :=
  ∀ x, datos !! SIN_SECCION = Some x → ∃ l, x = PList l.

(** What the row that opens a section leaves in the new section, when the
    same turn of the loop goes on to line 131 with it: its cell as a rejected
    key, or as a key without value. *)
Definition first_entry (c : cell) : gmap pystr pyval :=
  if clave_invalida c CNone
  then {[ VALORES_MISCELANEOS := PList [PCell c; PCell CNone] ]}
  else {[ Str.normalize (str c) := PCell CNone ]}.



(** The pair is rejected, or accepted under a key other than the reserved
    [valores_miscelaneos]. *)
Definition key_is_free (key_candidate value_candidate : cell) : bool :=
  clave_invalida key_candidate value_candidate
  || negb (bool_decide (Str.normalize (str key_candidate)
                        = VALORES_MISCELANEOS)).

(** No pair of the row is accepted under the reserved key. *)
Fixpoint no_reserved_key (fila : list cell) : bool :=
  match fila with
  | [] => true
  | [key_candidate] => key_is_free key_candidate CNone
  | key_candidate :: value_candidate :: fila' =>
      key_is_free key_candidate value_candidate && no_reserved_key fila'
  end.

(** A row as the cleaning hands it over, every cell with a text of its own,
    and without the reserved key. *)
Definition regular_row (fila : list cell) : Prop :=
  fila ≠ []
  ∧ Forall (fun c => has_content c = true) fila
  ∧ no_reserved_key fila = true.

(** The states the loop goes through on regular rows: before the first
    section the result holds at most the bucket; afterwards the content of
    the current section is a sequence in table mode, and else a mapping
    whose [valores_miscelaneos] is a list. *)
Definition well_formed (st : state) : Prop :=
  match seccion_actual st with
  | None => bucket_is_list (datos_estructurados st)
  | Some sec =>
      sec ≠ []
      ∧ if is_in_table_section st
        then current_table_headers st ≠ []
             ∧ ∃ l, datos_estructurados st !! sec = Some (PList l)
        else ∃ d, datos_estructurados st !! sec = Some (PDict d)
                  ∧ misc_is_list d
  end.

(** ** The workbook (lines 74-77 and 212) *)

(** [ArchivoPrincipal] after the loop over the sheets; a sheet is given by
    its name and the rows read from it. *)
Fixpoint procesar_libro (hojas : list (pystr * list (list cell)))
    (ArchivoPrincipal : gmap pystr (gmap pystr pyval))
    : result (gmap pystr (gmap pystr pyval)) :=
  match hojas with
  | [] => Ok ArchivoPrincipal
  | (hoja, rows) :: hojas' =>
      datos ← procesar_hoja rows;
      procesar_libro hojas' (<[hoja := datos]> ArchivoPrincipal)
  end.

(** ** Notions used in the further properties *)

(** The pairs that the loops of lines 151 and 191 read from a row. *)
Fixpoint pairs (fila : list cell) : list (cell * cell) :=
  match fila with
  | [] => []
  | [k] => [(k, CNone)]
  | k :: v :: fila' => (k, v) :: pairs fila'
  end.




(** Every cell in key position is a text that is not blank. *)
Definition all_keys_text (fila : list cell) : Prop :=
  Forall (fun p => is_str p.1 = true ∧ Str.non_blank (str p.1) = true)
         (pairs fila).


(** A text without white space at its ends. *)
Definition trimmed (u : pystr) : Prop :=
  (∀ c, head u = Some c → Str.is_space c = false)
  ∧ (∀ c, last u = Some c → Str.is_space c = false).

(** The [str()] text carried by a float or a temporal cell is not blank, as
    it is for every value of these types. *)
Definition cell_wf (c : cell) : Prop :=
  match c with
  | CFloat r | CTemporal r => Str.non_blank r = true
  | _ => True
  end.

(** The result [datos'] differs from [datos] at the key [k0] at most, and
    has that key if [datos] has it. *)
Definition only_at (k0 : pystr) (datos datos' : gmap pystr pyval) : Prop :=
  (∀ k, k ≠ k0 → datos' !! k = datos !! k)
  ∧ (is_Some (datos !! k0) → is_Some (datos' !! k0)).

(** A decimal digit or the minus sign. *)
Definition digit_or_minus (c : N) : Prop :=
  (48 ≤ c ∧ c ≤ 57)%N ∨ c = 45%N.

(** * Properties *)

(** ** Text *)


Lemma normalize_length (s : pystr) :
  length (Str.normalize s) = length (Str.strip s).
Proof.
  unfold Str.normalize, Str.replace_space, Str.lower.
  by rewrite !length_fmap.
Qed.

Lemma normalize_nil (s : pystr) :
  Str.normalize s = [] ↔ Str.strip s = [].
Proof.
  rewrite <- !length_zero_iff_nil. by rewrite normalize_length.
Qed.

(** ** Row cleaning *)









(** ** Key/value rows *)



Lemma par_rejected (sec : pystr) (k v : cell) (datos d : gmap pystr pyval)
    (subdata : gmap pystr cell) :
  datos !! sec = Some (PDict d) → misc_is_list d →
  clave_invalida k v = true →
  par sec k v datos subdata
  = Ok (<[sec := PDict (<[VALORES_MISCELANEOS :=
                            PList (misc_of d ++ [PCell k; PCell v])]> d)]>
          datos, subdata).
Proof.
  intros Hsec Hmisc Hk. unfold par, misc_of. rewrite Hk, Hsec.
  destruct (d !! VALORES_MISCELANEOS) as [x|] eqn:E; [|done].
  destruct (Hmisc x E) as [l ->]. done.
Qed.

Lemma par_accepted (sec : pystr) (k v : cell) (datos d : gmap pystr pyval)
    (subdata : gmap pystr cell) :
  datos !! sec = Some (PDict d) →
  clave_invalida k v = false →
  par sec k v datos subdata
  = Ok (datos, <[Str.normalize (str k) := v]> subdata).
Proof. intros Hsec Hk. unfold par. by rewrite Hk, Hsec. Qed.

Lemma update_subdata_insert (sec key : pystr) (v : cell)
    (subdata : gmap pystr cell) (datos d : gmap pystr pyval) :
  datos !! sec = Some (PDict d) →
  update_subdata sec (<[key := v]> subdata) datos
  = <[sec := PDict (<[key := PCell v]> ((PCell <$> subdata) ∪ d))]> datos.
Proof.
  intros Hsec. unfold update_subdata.
  rewrite bool_decide_eq_false_2 by apply insert_non_empty.
  by rewrite Hsec, fmap_insert, insert_union_l.
Qed.

Lemma fmap_empty_union (d : gmap pystr pyval) :
  (PCell <$> (∅ : gmap pystr cell)) ∪ d = d.
Proof. by rewrite fmap_empty, (left_id_L ∅ (∪)). Qed.




Lemma fila_de_pares_accepted (sec : pystr) (k v : cell)
    (datos d : gmap pystr pyval) :
  datos !! sec = Some (PDict d) →
  clave_invalida k v = false →
  fila_de_pares sec [k; v] datos
  = Ok (<[sec := PDict (<[Str.normalize (str k) := PCell v]> d)]> datos).
Proof.
  intros Hsec Hk. unfold fila_de_pares, pares.
  rewrite (par_accepted _ _ _ _ d) by done. cbn [mbind result_bind].
  rewrite (update_subdata_insert _ _ _ _ _ d) by done.
  by rewrite fmap_empty_union.
Qed.

(** A row that is not a header row, in a section that is not a table, goes
    to the key/value processing. *)
Lemma turno_metadata (fila : list cell) (rest : list (list cell))
    (st : state) (sec : pystr) :
  open_section st = Some sec →
  is_in_table_section st = false →
  length fila ≠ 1 →
  forallb is_str fila = false ∨ rest = [] →
  turno fila rest st
  = (datos ← fila_de_pares sec fila (datos_estructurados st);
     Ok (set_datos st datos)).
Proof.
  intros Hopen Htab Hlen Hno. unfold turno.
  assert (clasificar fila rest st = Ok (Fall st)) as ->.
  { assert (clasificar fila rest st = Ok (cabeceras fila rest st)) as ->.
    { destruct fila as [|c1 [|c2 fila]]; done. }
    unfold cabeceras. rewrite Hopen.
    destruct Hno as [-> | ->].
    - by rewrite andb_false_r.
    - by rewrite andb_false_r. }
  cbn [mbind result_bind]. unfold procesar. by rewrite Hopen, Htab.
Qed.



(** C4, as amended: the row [["Modelo", "G3.2"]], processed inside an open
    section with no table headers, is accepted: the mapping of the section
    gains the entry [modelo: "G3.2"] and [valores_miscelaneos] is left as it
    was.  The text ["G3.2"] is rejected where it is the key candidate. *)
Theorem C4_modelo_is_accepted (sec : pystr) (datos d : gmap pystr pyval) :
  datos !! sec = Some (PDict d) →
  (∃ d', fila_de_pares sec [T "Modelo"; T "G3.2"] datos
         = Ok (<[sec := PDict d']> datos)
       ∧ d' !! lit "modelo" = Some (PCell (T "G3.2"))
       ∧ d' !! VALORES_MISCELANEOS = d !! VALORES_MISCELANEOS
       ∧ ∀ st, datos_estructurados st = datos →
           open_section st = Some sec → is_in_table_section st = false →
           turno [T "Modelo"; T "G3.2"] [] st
           = Ok (set_datos st (<[sec := PDict d']> datos)))
  ∧ ∀ v, clave_invalida (T "G3.2") v = true.
Proof.
  intros Hsec.
  assert (fila_de_pares sec [T "Modelo"; T "G3.2"] datos
          = Ok (<[sec := PDict (<[lit "modelo" := PCell (T "G3.2")]> d)]>
                  datos)) as Hrow.
  { by apply fila_de_pares_accepted. }
  split.
  - exists (<[lit "modelo" := PCell (T "G3.2")]> d). split_and!.
    + exact Hrow.
    + apply lookup_insert_eq.
    + apply lookup_insert_ne. by vm_compute.
    + intros st Hdatos Hopen Htab.
      rewrite (turno_metadata _ _ _ sec) by (done || by right).
      by rewrite Hdatos, Hrow.
  - intros v. reflexivity.
Qed.

Lemma C4_modelo_is_accepted_witness :
  (∃ d', fila_de_pares (lit "equipo") [T "Modelo"; T "G3.2"]
                       {[ lit "equipo" := PDict ∅ ]}
         = Ok (<[ lit "equipo" := PDict d' ]> {[ lit "equipo" := PDict ∅ ]})
       ∧ d' !! lit "modelo" = Some (PCell (T "G3.2"))
       ∧ d' !! VALORES_MISCELANEOS
         = (∅ : gmap pystr pyval) !! VALORES_MISCELANEOS
       ∧ ∀ st, datos_estructurados st = {[ lit "equipo" := PDict ∅ ]} →
           open_section st = Some (lit "equipo") →
           is_in_table_section st = false →
           turno [T "Modelo"; T "G3.2"] [] st
           = Ok (set_datos st (<[ lit "equipo" := PDict d' ]>
                                 {[ lit "equipo" := PDict ∅ ]})))
  ∧ ∀ v, clave_invalida (T "G3.2") v = true.
Proof.
  apply (C4_modelo_is_accepted (lit "equipo")
           {[ lit "equipo" := PDict ∅ ]} ∅). reflexivity.
Defined.

(** C4, as the specification has it, fails: the row [["Modelo", "G3.2"]]
    after the section row [["Sec"]] puts [modelo: "G3.2"] into the mapping
    of the section, and [valores_miscelaneos] holds only what the section
    row left there. *)
Lemma C4_modelo_not_rejected :
  clave_invalida (T "Modelo") (T "G3.2") = false
  ∧ estructurar [[T "Sec"]; [T "Modelo"; T "G3.2"]]
    = Ok {[ lit "sec" := PDict {[
              VALORES_MISCELANEOS := PList [PCell (T "Sec"); PCell CNone];
              lit "modelo" := PCell (T "G3.2") ]} ]}.
Proof. split; vm_compute; reflexivity. Qed.

(** ** Table rows *)

Lemma fill_row_other (headers : list pystr) :
  ∀ idx fila (row_data : gmap pystr cell) h,
    h ∉ headers → fill_row idx headers fila row_data !! h = row_data !! h.
Proof.
  induction headers as [|x hs IH]; intros idx fila rd h Hh; [done|].
  apply not_elem_of_cons in Hh as [Hx Hhs]. cbn [fill_row].
  rewrite IH by done. by rewrite lookup_insert_ne.
Qed.

Lemma fill_row_last (headers : list pystr) :
  ∀ idx fila (row_data : gmap pystr cell) i h,
    headers !! i = Some h →
    (∀ j, i < j → headers !! j ≠ Some h) →
    fill_row idx headers fila row_data !! h
    = Some (default CNone (fila !! (idx + i)%nat)).
Proof.
  induction headers as [|x hs IH]; intros idx fila rd i h Hi Hlast; [done|].
  destruct i as [|i]; cbn [fill_row].
  - injection Hi as ->. rewrite fill_row_other.
    + by rewrite lookup_insert_eq, Nat.add_0_r.
    + intros [j Hj]%list_elem_of_lookup. apply (Hlast (S j)); [lia|done].
  - rewrite (IH _ _ _ i h Hi).
    + by replace (S idx + i)%nat with (idx + S i)%nat by lia.
    + intros j Hj. apply (Hlast (S j)). lia.
Qed.

Lemma fill_row_dom (headers : list pystr) :
  ∀ idx fila (row_data : gmap pystr cell) h,
    is_Some (fill_row idx headers fila row_data !! h)
    ↔ h ∈ headers ∨ is_Some (row_data !! h).
Proof.
  induction headers as [|x hs IH]; intros idx fila rd h; cbn [fill_row].
  - rewrite elem_of_nil. tauto.
  - rewrite IH, elem_of_cons, lookup_insert_is_Some.
    destruct (decide (x = h)) as [->|Hne]; intuition congruence.
Qed.

Lemma any_content_spec (row_data : gmap pystr cell) :
  any_content row_data = true
  ↔ ∃ h c, row_data !! h = Some c ∧ has_content c = true.
Proof.
  unfold any_content. rewrite existsb_exists. split.
  - intros (c & Hin & Hc).
    apply list_elem_of_In, list_elem_of_fmap in Hin as ([h c'] & -> & Hin).
    apply elem_of_map_to_list in Hin. eauto.
  - intros (h & c & Hl & Hc). exists c. split; [|done].
    apply list_elem_of_In, list_elem_of_fmap. exists (h, c).
    split; [done|]. by apply elem_of_map_to_list.
Qed.

Lemma set_datos_same (st : state) : set_datos st (datos_estructurados st) = st.
Proof. by destruct st. Qed.

Lemma procesar_table (st : state) (sec : pystr) (l : list pyval)
    (fila : list cell) :
  open_section st = Some sec →
  is_in_table_section st = true →
  current_table_headers st ≠ [] →
  datos_estructurados st !! sec = Some (PList l) →
  procesar fila st
  = Ok (if any_content (row_data_of (current_table_headers st) fila)
        then set_datos st
               (<[sec := PList (l ++ [PDict (PCell <$> row_data_of
                                         (current_table_headers st) fila)])]>
                  (datos_estructurados st))
        else st).
Proof.
  intros Hsec Htab Hh Hl. unfold procesar, fila_de_tabla, item_append.
  rewrite Hsec, Htab.
  destruct (current_table_headers st) as [|h hs] eqn:E; [done|].
  cbn [nonempty andb].
  destruct (any_content _); cbn [mbind result_bind].
  - by rewrite Hl.
  - by rewrite set_datos_same.
Qed.

(** C7, as amended: in table mode with a non-empty header list, a data row
    yields a record with one field for each header name, holding the cell at
    the last position where that name stands in the header list, or null
    when the row is too short to have it (no shifting, no fault); with
    pairwise distinct header names this is position [i] to cell [i].  The
    record is appended to the sequence of the section if and only if one of
    its fields is neither null nor blank, else the row is dropped and the
    state stays as it is.  The header [["Corriente", "Tiempo"]] followed by
    [[10, 5]] and a blank-equivalent row gives the one record
    [{"corriente": 10, "tiempo": 5}]. *)
Theorem C7_table_record (st : state) (sec : pystr) (l : list pyval)
    (fila : list cell) :
  open_section st = Some sec →
  is_in_table_section st = true →
  current_table_headers st ≠ [] →
  datos_estructurados st !! sec = Some (PList l) →
  let headers := current_table_headers st in
  let record := row_data_of headers fila in
  (∀ i h, headers !! i = Some h →
     (∀ j, i < j → headers !! j ≠ Some h) →
     record !! h = Some (default CNone (fila !! i)))
  ∧ (NoDup headers → ∀ i h, headers !! i = Some h →
     record !! h = Some (default CNone (fila !! i)))
  ∧ (∀ h, is_Some (record !! h) ↔ h ∈ headers)
  ∧ ((∃ h c, record !! h = Some c ∧ has_content c = true) →
     procesar fila st
     = Ok (set_datos st (<[sec := PList (l ++ [PDict (PCell <$> record)])]>
                           (datos_estructurados st))))
  ∧ (¬ (∃ h c, record !! h = Some c ∧ has_content c = true) →
     procesar fila st = Ok st)
  ∧ estructurar [[T "Sec"]; [T "Corriente"; T "Tiempo"];
                 [CInt 10; CInt 5]; [CNone; CNone]]
    = Ok {[ lit "sec" := PList [PDict {[ lit "corriente" := PCell (CInt 10);
                                         lit "tiempo" := PCell (CInt 5) ]}] ]}.
Proof.
  intros Hsec Htab Hh Hl headers record.
  assert (∀ i h, headers !! i = Some h →
     (∀ j, i < j → headers !! j ≠ Some h) →
     record !! h = Some (default CNone (fila !! i))) as Hlast.
  { intros i h Hi Hj. unfold record, row_data_of.
    by rewrite (fill_row_last headers 0 fila ∅ i h). }
  split_and!.
  - exact Hlast.
  - intros Hnd i h Hi. apply Hlast; [done|]. intros j Hij Hj.
    pose proof (NoDup_lookup _ _ _ _ Hnd Hi Hj). lia.
  - intros h. unfold record, row_data_of. rewrite fill_row_dom.
    rewrite lookup_empty, is_Some_alt. tauto.
  - intros Hc. rewrite (procesar_table st sec l) by done.
    apply any_content_spec in Hc. fold headers. fold record. by rewrite Hc.
  - intros Hc. rewrite (procesar_table st sec l) by done.
    rewrite <- any_content_spec in Hc. apply not_true_is_false in Hc.
    fold headers. fold record. by rewrite Hc.
  - vm_compute. reflexivity.
Qed.

Lemma C7_table_record_witness :
  procesar [CInt 10; CInt 5]
    (State {[ lit "sec" := PList [] ]} (Some (lit "sec")) 1
           [lit "corriente"; lit "tiempo"] true)
  = Ok (State {[ lit "sec" := PList [PDict {[
                   lit "corriente" := PCell (CInt 10);
                   lit "tiempo" := PCell (CInt 5) ]}] ]}
              (Some (lit "sec")) 1 [lit "corriente"; lit "tiempo"] true).
Proof.
  pose proof (C7_table_record
    (State {[ lit "sec" := PList [] ]} (Some (lit "sec")) 1
           [lit "corriente"; lit "tiempo"] true)
    (lit "sec") [] [CInt 10; CInt 5] eq_refl eq_refl) as H.
  destruct H as (_ & _ & _ & H & _); [discriminate | reflexivity |].
  rewrite H.
  - vm_compute. reflexivity.
  - exists (lit "corriente"), (CInt 10). split; reflexivity.
Defined.

(** C7, as the specification has it, fails: with the header list
    [["a", "a"]] the record of the row [[1, 2]] has the one field [a: 2];
    position 0 of the headers is not paired with cell 0 of the row. *)
Lemma C7_repeated_header_keeps_last_cell :
  [lit "a"; lit "a"] !! 0%nat = Some (lit "a")
  ∧ [CInt 1; CInt 2] !! 0%nat = Some (CInt 1)
  ∧ row_data_of [lit "a"; lit "a"] [CInt 1; CInt 2] !! lit "a"
    = Some (CInt 2)
  ∧ estructurar [[T "S"]; [T "A"; T "A"]; [CInt 1; CInt 2]]
    = Ok {[ lit "s" := PList [PDict {[ lit "a" := PCell (CInt 2) ]}] ]}.
Proof. split_and!; vm_compute; reflexivity. Qed.

(** ** Rows of one cell *)

Lemma misc_is_list_empty : misc_is_list ∅.
Proof. intros x Hx. by rewrite lookup_empty in Hx. Qed.

(** A row of one cell that opens a section: the section is registered under
    the normalized text of the cell, with a numeric suffix when that key is
    taken, and the same turn of the loop then reads the row as the first
    key/value row of the new section. *)
Lemma turno_new_section (c : cell) (rest : list (list cell)) (st : state) :
  let key := Str.normalize (str c) in
  let taken := bool_decide (is_Some (datos_estructurados st !! key)) in
  let key' :=
    if taken then key ++ lit "_" ++ Str.of_Z (seccion_id st) else key in
  key ≠ [] →
  ¬ (key = SIN_SECCION ∧ open_section st = None) →
  turno [c] rest st
  = Ok (State (<[key' := PDict (first_entry c)]> (datos_estructurados st))
              (Some key')
              (if taken then (seccion_id st + 1)%Z else seccion_id st)
              [] false).
Proof.
  intros key taken key' Hkey Hsin.
  assert (key' ≠ []) as Hkey'.
  { unfold key'. destruct taken; [|done]. by intros [? _]%app_eq_nil. }
  unfold turno, clasificar, nueva_seccion.
  change (Str.replace_space (Str.lower (Str.strip (str c)))) with key.
  fold taken. fold key'.
  destruct (bool_decide (key = SIN_SECCION)
            && bool_decide (open_section st = None)) eqn:E.
  { apply andb_true_iff in E as [E1 E2].
    apply bool_decide_eq_true in E1, E2. by destruct Hsin. }
  cbn [mbind result_bind]. clearbody key'.
  destruct key' as [|a k]; [done|].
  unfold procesar, fila_de_pares, pares.
  cbn [open_section seccion_actual is_in_table_section andb
       datos_estructurados].
  unfold first_entry.
  destruct (clave_invalida c CNone) eqn:Ec.
  - rewrite (par_rejected _ _ _ _ ∅); [|apply lookup_insert_eq
                                        |apply misc_is_list_empty|done].
    cbn [mbind result_bind]. unfold update_subdata, set_datos, misc_of.
    rewrite bool_decide_eq_true_2 by done.
    rewrite lookup_empty, insert_insert_eq, insert_empty.
    reflexivity.
  - rewrite (par_accepted _ _ _ _ ∅); [|apply lookup_insert_eq|done].
    cbn [mbind result_bind].
    rewrite (update_subdata_insert _ _ _ _ _ ∅) by apply lookup_insert_eq.
    unfold set_datos.
    rewrite fmap_empty_union, insert_insert_eq, insert_empty.
    reflexivity.
Qed.

Lemma turno_sentinel_no_section (c : cell) (rest : list (list cell))
    (st : state) :
  Str.normalize (str c) = SIN_SECCION →
  open_section st = None →
  bucket_is_list (datos_estructurados st) →
  turno [c] rest st
  = Ok (set_datos st
          (<[SIN_SECCION := PList (bucket_of (datos_estructurados st)
                                   ++ [row_value [c]])]>
             (datos_estructurados st))).
Proof.
  intros Hkey Hopen Hbucket. unfold turno, clasificar, nueva_seccion.
  change (Str.replace_space (Str.lower (Str.strip (str c))))
    with (Str.normalize (str c)).
  rewrite Hkey, Hopen, !bool_decide_eq_true_2 by done.
  cbn [andb]. unfold setdefault_append, bucket_of.
  destruct (datos_estructurados st !! SIN_SECCION) as [x|] eqn:E; [|done].
  destruct (Hbucket x E) as [l ->]. done.
Qed.

Lemma SIN_SECCION_not_nil : SIN_SECCION ≠ [].
Proof. discriminate. Qed.

(** C3, as amended: a row of one cell whose text normalizes to
    [sin_seccion] is, when no section is open, appended as it is to the
    [sin_seccion] bucket, and no section is opened.  When a section is open
    the row opens a section as every other row of one cell does: under the
    key [sin_seccion] itself when the result has no such key yet, and under
    that key with a numeric suffix when it has. *)
Theorem C3_sentinel_row (c : cell) (rest : list (list cell)) (st : state) :
  Str.normalize (str c) = SIN_SECCION →
  (open_section st = None → bucket_is_list (datos_estructurados st) →
   ∃ st', turno [c] rest st = Ok st'
     ∧ datos_estructurados st'
       = <[SIN_SECCION := PList (bucket_of (datos_estructurados st)
                                 ++ [row_value [c]])]>
           (datos_estructurados st)
     ∧ seccion_actual st' = seccion_actual st
     ∧ open_section st' = None)
  ∧ (is_Some (open_section st) →
     (datos_estructurados st !! SIN_SECCION = None →
      turno [c] rest st
      = Ok (State (<[SIN_SECCION := PDict (first_entry c)]>
                     (datos_estructurados st))
                  (Some SIN_SECCION) (seccion_id st) [] false))
     ∧ (is_Some (datos_estructurados st !! SIN_SECCION) →
        turno [c] rest st
        = Ok (State (<[SIN_SECCION ++ lit "_" ++ Str.of_Z (seccion_id st)
                       := PDict (first_entry c)]> (datos_estructurados st))
                    (Some (SIN_SECCION ++ lit "_"
                           ++ Str.of_Z (seccion_id st)))
                    (seccion_id st + 1)%Z [] false))).
Proof.
  intros Hkey. split.
  - intros Hopen Hbucket. eexists. split.
    + by apply turno_sentinel_no_section.
    + by destruct st.
  - intros [sec Hsec].
    pose proof (turno_new_section c rest st) as H. cbv zeta in H.
    rewrite Hkey in H.
    assert (¬ (SIN_SECCION = SIN_SECCION ∧ open_section st = None)) as Hn.
    { intros [_ Hopen]. by rewrite Hopen in Hsec. }
    specialize (H SIN_SECCION_not_nil Hn). split.
    + intros Hfree. rewrite H.
      by rewrite bool_decide_eq_false_2 by (rewrite Hfree; by intros [? ?]).
    + intros Htaken. rewrite H. by rewrite bool_decide_eq_true_2.
Qed.

Lemma C3_sentinel_row_witness :
  (∃ st', turno [T "Sin Seccion"] [] initial = Ok st'
     ∧ datos_estructurados st'
       = <[SIN_SECCION := PList (bucket_of ∅
                                 ++ [row_value [T "Sin Seccion"]])]> ∅
     ∧ seccion_actual st' = None
     ∧ open_section st' = None).
Proof.
  refine (proj1 (C3_sentinel_row (T "Sin Seccion") [] initial eq_refl)
                eq_refl _).
  intros x Hx. vm_compute in Hx. discriminate.
Defined.

(** C3, as the specification has it, fails: with the section [a] open, the
    row [["Sin Seccion"]] registers [sin_seccion] as a section of the
    result. *)
Lemma C3_sentinel_registered_as_section :
  estructurar [[T "A"]; [T "Sin Seccion"]]
  = Ok {[ lit "a" := PDict {[ VALORES_MISCELANEOS :=
                                PList [PCell (T "A"); PCell CNone] ]};
          SIN_SECCION := PDict {[ VALORES_MISCELANEOS :=
                         PList [PCell (T "Sin Seccion"); PCell CNone] ]} ]}.
Proof. vm_compute. reflexivity. Qed.

(** C10, checked on two rows of one cell: the row [[42]] does open a
    section with the key [42], and the same turn of the loop then reads the
    row as a key/value row of that section, where the number is a rejected
    key and goes to [valores_miscelaneos]; a temporal cell becomes a key of
    its own section, without value. *)
Theorem C10_single_cell_row_processed_twice :
  estructurar [[CInt 42]]
  = Ok {[ lit "42" := PDict {[ VALORES_MISCELANEOS :=
                                 PList [PCell (CInt 42); PCell CNone] ]} ]}
  ∧ estructurar [[CTemporal (lit "2024-01-01 00:00:00")]]
    = Ok {[ lit "2024-01-01_00:00:00" :=
              PDict {[ lit "2024-01-01_00:00:00" := PCell CNone ]} ]}.
Proof. split; vm_compute; reflexivity. Qed.

(** C2, checked on rows that open the sections [a_1], [a] and [a] again:
    the third section row finds the key [a] taken and is registered as
    [a_1], the key of the first section, whose entry [x: 1] is lost; three
    sections were opened and the result has two.  A later row [["a_1"]] gets
    the key [a_1_2], and of the two rows with the text [a_1] only the second
    still has its section in the result. *)
Theorem C2_suffixed_key_overwrites_section :
  estructurar [[T "a_1"]; [T "x"; CInt 1]]
  = Ok {[ lit "a_1" := PDict {[
            VALORES_MISCELANEOS := PList [PCell (T "a_1"); PCell CNone];
            lit "x" := PCell (CInt 1) ]} ]}
  ∧ estructurar [[T "a_1"]; [T "x"; CInt 1]; [T "a"]; [T "a"]]
    = Ok {[ lit "a_1" := PDict {[ VALORES_MISCELANEOS :=
                                    PList [PCell (T "a"); PCell CNone] ]};
            lit "a" := PDict {[ VALORES_MISCELANEOS :=
                                  PList [PCell (T "a"); PCell CNone] ]} ]}
  ∧ estructurar [[T "a_1"]; [T "x"; CInt 1]; [T "a"]; [T "a"]; [T "a_1"]]
    = Ok {[ lit "a_1" := PDict {[ VALORES_MISCELANEOS :=
                                    PList [PCell (T "a"); PCell CNone] ]};
            lit "a" := PDict {[ VALORES_MISCELANEOS :=
                                  PList [PCell (T "a"); PCell CNone] ]};
            lit "a_1_2" := PDict {[ VALORES_MISCELANEOS :=
                                  PList [PCell (T "a_1"); PCell CNone] ]} ]}.
Proof. split_and!; vm_compute; reflexivity. Qed.

(** C6, checked on three rows, which the cleaning leaves as they are: the
    accepted key ["valores miscelaneos"] replaces the list of rejected
    values of the section by the number 5, and the next rejected pair calls
    [extend] on that number. *)
Theorem C6_reserved_key_raises :
  let rows := [[T "Sec"]; [T "valores miscelaneos"; CInt 5];
               [CInt 1; CInt 2]] in
  filas_crudas rows = rows
  ∧ estructurar [[T "Sec"]; [T "valores miscelaneos"; CInt 5]]
    = Ok {[ lit "sec" := PDict {[ VALORES_MISCELANEOS := PCell (CInt 5) ]} ]}
  ∧ estructurar rows = Raise AttributeError
  ∧ procesar_hoja rows = Raise AttributeError.
Proof. split_and!; vm_compute; reflexivity. Qed.

(** ** Table sections *)









(** ** Where the loop returns a result

    The loop is a function of the rows, so it always ends; what is left to
    see is that it ends without an exception.  It does on regular rows, that
    is, as long as no pair is accepted under the key [valores_miscelaneos]. *)

Ltac simpl_state :=
  cbn [seccion_actual datos_estructurados seccion_id is_in_table_section
       current_table_headers set_datos] in *.

Lemma well_formed_open (st : state) :
  well_formed st → open_section st = seccion_actual st.
Proof.
  unfold well_formed, open_section.
  destruct (seccion_actual st) as [[|c s]|]; [|done..]. by intros [? _].
Qed.

Lemma pares_regular (sec : pystr) (n : nat) :
  ∀ fila datos d (subdata : gmap pystr cell),
    length fila ≤ n →
    datos !! sec = Some (PDict d) → misc_is_list d →
    no_reserved_key fila = true →
    subdata !! VALORES_MISCELANEOS = None →
    ∃ datos' d' subdata',
      pares sec fila datos subdata = Ok (datos', subdata')
      ∧ datos' !! sec = Some (PDict d') ∧ misc_is_list d'
      ∧ subdata' !! VALORES_MISCELANEOS = None.
Proof.
  assert (∀ k v datos d (subdata : gmap pystr cell),
    datos !! sec = Some (PDict d) → misc_is_list d →
    key_is_free k v = true →
    subdata !! VALORES_MISCELANEOS = None →
    ∃ datos' d' subdata',
      par sec k v datos subdata = Ok (datos', subdata')
      ∧ datos' !! sec = Some (PDict d') ∧ misc_is_list d'
      ∧ subdata' !! VALORES_MISCELANEOS = None) as Hpar.
  { intros k v datos d subdata Hsec Hmisc Hfree Hsub.
    destruct (clave_invalida k v) eqn:Ek.
    - rewrite (par_rejected _ _ _ _ d) by done.
      eexists _, _, _. split; [done|]. split_and!.
      + apply lookup_insert_eq.
      + intros x. rewrite lookup_insert_eq. intros [= <-]. eauto.
      + done.
    - rewrite (par_accepted _ _ _ _ d) by done.
      eexists _, d, _. split; [done|]. split_and!; [done..|].
      unfold key_is_free in Hfree. rewrite Ek in Hfree.
      apply negb_true_iff, bool_decide_eq_false in Hfree.
      by rewrite lookup_insert_ne. }
  induction n as [|n IH];
    intros fila datos d subdata Hlen Hsec Hmisc Hfree Hsub.
  - destruct fila; [|simpl in Hlen; lia]. by exists datos, d, subdata.
  - destruct fila as [|k [|v fila]].
    + by exists datos, d, subdata.
    + cbn [pares]. by eapply Hpar.
    + cbn [pares no_reserved_key] in *.
      apply andb_true_iff in Hfree as [Hk Hfree].
      destruct (Hpar k v datos d subdata Hsec Hmisc Hk Hsub)
        as (datos1 & d1 & subdata1 & -> & Hsec1 & Hmisc1 & Hsub1).
      cbn [mbind result_bind].
      apply (IH fila datos1 d1 subdata1); [simpl in Hlen; lia|done..].
Qed.

Lemma fila_de_pares_regular (sec : pystr) (fila : list cell)
    (datos d : gmap pystr pyval) :
  datos !! sec = Some (PDict d) → misc_is_list d →
  no_reserved_key fila = true →
  ∃ datos' d', fila_de_pares sec fila datos = Ok datos'
    ∧ datos' !! sec = Some (PDict d') ∧ misc_is_list d'.
Proof.
  intros Hsec Hmisc Hfree. unfold fila_de_pares.
  destruct (pares_regular sec (length fila) fila datos d ∅)
    as (datos1 & d1 & subdata1 & -> & Hsec1 & Hmisc1 & Hsub1); [done..|].
  cbn [mbind result_bind]. unfold update_subdata. rewrite Hsec1.
  destruct (bool_decide (subdata1 = ∅)).
  - by exists datos1, d1.
  - eexists _, _. split; [done|]. split; [apply lookup_insert_eq|].
    intros x Hx. apply lookup_union_Some_raw in Hx as [Hx|[_ Hx]].
    + rewrite lookup_fmap, Hsub1 in Hx. done.
    + by apply Hmisc1.
Qed.

Lemma has_content_key (c : cell) :
  has_content c = true → Str.normalize (str c) ≠ [].
Proof.
  intros Hc. rewrite normalize_nil. intros Hnil.
  unfold has_content, Str.non_blank in Hc. rewrite Hnil in Hc.
  by destruct c.
Qed.

Lemma first_entry_misc (c : cell) :
  no_reserved_key [c] = true → misc_is_list (first_entry c).
Proof.
  cbn [no_reserved_key]. unfold key_is_free, first_entry. intros Hfree x.
  destruct (clave_invalida c CNone).
  - rewrite lookup_singleton_eq. intros [= <-]. eauto.
  - apply negb_true_iff, bool_decide_eq_false in Hfree.
    by rewrite lookup_singleton_ne.
Qed.

Lemma procesar_regular (fila : list cell) (st : state) :
  well_formed st → no_reserved_key fila = true →
  ∃ st', procesar fila st = Ok st' ∧ well_formed st'.
Proof.
  intros Hwf Hfree. unfold procesar. rewrite (well_formed_open st Hwf).
  unfold well_formed in Hwf.
  destruct st as [datos [sec|] id headers table]; simpl_state.
  - destruct Hwf as [Hsec Hwf]. destruct table.
    + destruct Hwf as (Hh & l & Hl). destruct headers as [|h hs]; [done|].
      cbn [nonempty]. unfold fila_de_tabla, item_append.
      destruct (any_content _); rewrite ?Hl; cbn [mbind result_bind].
      * eexists. split; [done|]. unfold well_formed. simpl_state.
        rewrite lookup_insert_eq. eauto.
      * eexists. split; [done|]. unfold well_formed. simpl_state. eauto.
    + destruct Hwf as (d & Hd & Hmisc). cbn [andb].
      destruct (fila_de_pares_regular sec fila datos d Hd Hmisc Hfree)
        as (datos' & d' & -> & Hd' & Hmisc').
      cbn [mbind result_bind]. eexists. split; [done|].
      unfold well_formed. simpl_state. eauto.
  - unfold setdefault_append.
    destruct (datos !! SIN_SECCION) as [x|] eqn:E.
    + destruct (Hwf x E) as [l ->]. cbn [mbind result_bind].
      eexists. split; [reflexivity|].
      unfold well_formed, bucket_is_list. simpl_state.
      intros y. rewrite lookup_insert_eq. intros [= <-]. eauto.
    + cbn [mbind result_bind]. eexists. split; [reflexivity|].
      unfold well_formed, bucket_is_list. simpl_state.
      intros y. rewrite lookup_insert_eq. intros [= <-]. eauto.
Qed.

Lemma cabeceras_regular (fila : list cell) (rest : list (list cell))
    (st : state) :
  well_formed st →
  (cabeceras fila rest st = Fall st)
  ∨ ∃ st', cabeceras fila rest st = Continue st' ∧ well_formed st'.
Proof.
  intros Hwf. unfold cabeceras. rewrite (well_formed_open st Hwf).
  destruct (seccion_actual st) as [sec|] eqn:Esec; [|by left].
  destruct ((1 <? length fila) && forallb is_str fila && nonempty rest)
    eqn:E; [|by left].
  destruct (_ || _); [|by left].
  right. eexists. split; [done|].
  unfold well_formed in *. simpl_state. rewrite Esec in *.
  destruct Hwf as [Hsec Hwf]. split; [done|]. split.
  - apply andb_true_iff in E as [[E1 _]%andb_true_iff _].
    apply Nat.ltb_lt in E1. intros Hnil%fmap_nil_inv.
    rewrite Hnil in E1. simpl in E1. lia.
  - unfold is_list_at.
    destruct (datos_estructurados st !! sec) as [[]|] eqn:El; eauto;
      rewrite lookup_insert_eq; eauto.
Qed.

Lemma turno_regular (fila : list cell) (rest : list (list cell))
    (st : state) :
  well_formed st → regular_row fila →
  ∃ st', turno fila rest st = Ok st' ∧ well_formed st'.
Proof.
  intros Hwf (Hne & Hcontent & Hfree).
  destruct (decide (length fila = 1)) as [Hlen|Hlen].
  - destruct fila as [|c [|? ?]]; try done.
    apply Forall_inv in Hcontent.
    pose proof (has_content_key c Hcontent) as Hkey.
    destruct (decide (Str.normalize (str c) = SIN_SECCION
                      ∧ open_section st = None)) as [[Hsin Hopen]|Hn].
    + assert (seccion_actual st = None) as Hnone.
      { by rewrite <- (well_formed_open st Hwf). }
      assert (bucket_is_list (datos_estructurados st)) as Hbucket.
      { unfold well_formed in Hwf. by rewrite Hnone in Hwf. }
      rewrite turno_sentinel_no_section by done.
      eexists. split; [done|].
      unfold well_formed, bucket_is_list. simpl_state. rewrite Hnone.
      intros y. rewrite lookup_insert_eq. intros [= <-]. eauto.
    + pose proof (turno_new_section c rest st) as H. cbv zeta in H.
      rewrite H by done. eexists. split; [done|].
      unfold well_formed. simpl_state. split.
      * destruct (bool_decide _); [|done]. by intros [? _]%app_eq_nil.
      * eexists. split; [apply lookup_insert_eq|].
        by apply first_entry_misc.
  - unfold turno.
    assert (clasificar fila rest st = Ok (cabeceras fila rest st)) as ->.
    { destruct fila as [|c1 [|c2 fila]]; done. }
    cbn [mbind result_bind].
    destruct (cabeceras_regular fila rest st Hwf) as [->|(st' & -> & Hwf')].
    + by apply procesar_regular.
    + by exists st'.
Qed.

(** On regular rows the loop returns a result from every well-formed state,
    and the state it ends in is well formed. *)
Lemma recorrer_regular (filas : list (list cell)) :
  ∀ st, well_formed st → Forall regular_row filas →
    ∃ st', recorrer filas st = Ok st' ∧ well_formed st'.
Proof.
  induction filas as [|fila filas IH]; intros st Hwf Hreg.
  - by exists st.
  - apply Forall_cons in Hreg as [Hfila Hreg].
    destruct (turno_regular fila filas st Hwf Hfila) as (st1 & Ht & Hwf1).
    destruct (IH st1 Hwf1 Hreg) as (st' & Hrec & Hwf').
    exists st'. cbn [recorrer]. by rewrite Ht.
Qed.

Lemma estructurar_regular (filas : list (list cell)) :
  Forall regular_row filas → ∃ datos, estructurar filas = Ok datos.
Proof.
  intros Hreg. unfold estructurar.
  destruct (recorrer_regular filas initial) as (st' & -> & _); [|done|].
  - unfold well_formed, bucket_is_list, initial. simpl_state. intros x.
    by rewrite lookup_empty.
  - by eexists.
Qed.

(** * Further properties *)

(** ** The cleaned rows *)

Lemma filas_crudas_elem (rows : list (list cell)) (fila : list cell) :
  fila ∈ filas_crudas rows
  ↔ fila ≠ [] ∧ ∃ row, row ∈ rows ∧ fila = cleaned_row row.
Proof.
  induction rows as [|row rows IH]; cbn [filas_crudas].
  - split; [by intros ?%elem_of_nil|].
    by intros (_ & row & ?%elem_of_nil & _).
  - destruct (cleaned_row row) as [|c cs] eqn:E.
    + rewrite IH. split.
      * intros (Hne & r & Hr & ->). split; [done|]. exists r.
        split; [by right|done].
      * intros (Hne & r & [->|Hr]%elem_of_cons & ->); [by rewrite E in Hne|].
        split; [done|]. by exists r.
    + rewrite elem_of_cons, IH. split.
      * intros [->|(Hne & r & Hr & ->)].
        -- split; [done|]. exists row. split; [by left|done].
        -- split; [done|]. exists r. split; [by right|done].
      * intros (Hne & r & [->|Hr]%elem_of_cons & ->); [left; by rewrite E|].
        right. split; [done|]. by exists r.
Qed.

(** The rows handed to the parser are never empty and hold no absent cell:
    each is the cleaning of a row of the sheet that has a present cell, and
    a row of the sheet without any present cell is handed over nowhere. *)
Theorem filas_crudas_rows_present (rows : list (list cell)) :
  Forall (fun fila => fila ≠ []
                      ∧ Forall (fun c => keep_cell c = true) fila
                      ∧ ∃ row, row ∈ rows ∧ fila = cleaned_row row)
         (filas_crudas rows).
Proof.
  apply Forall_forall. intros fila Hfila.
  apply filas_crudas_elem in Hfila as (Hne & row & Hrow & ->).
  split_and!; [done| |by exists row].
  apply Forall_forall. intros c Hc. apply list_elem_of_In in Hc.
  by apply List.filter_In in Hc as [_ Hc].
Qed.



(** ** Table rows and header rows *)









(** ** Rows read two cells at a time *)

Lemma pair_ind (P : list cell → Prop) :
  P [] → (∀ k, P [k]) → (∀ k v l, P l → P (k :: v :: l)) → ∀ l, P l.
Proof.
  intros H0 H1 H2. fix IH 1.
  intros [|k [|v l]]; [exact H0 | apply H1 | apply H2, IH].
Qed.









(** ** Rows before the first section *)




Lemma all_keys_text_dec (fila : list cell) :
  all_keys_text fila ∨ ¬ all_keys_text fila.
Proof.
  unfold all_keys_text.
  destruct (decide (Forall
    (fun p : cell * cell =>
       is_str p.1 = true ∧ Str.non_blank (str p.1) = true) (pairs fila)));
    tauto.
Qed.



Lemma recorrer_without_section (filas : list (list cell)) :
  ∀ st, seccion_actual st = None →
    bucket_is_list (datos_estructurados st) →
    Forall (fun fila => length fila ≠ 1) filas → filas ≠ [] →
    recorrer filas st
    = Ok (set_datos st
            (<[SIN_SECCION :=
                 PList (bucket_of (datos_estructurados st)
                        ++ (subdata_sin_seccion <$> filas))]>
               (datos_estructurados st))).
Proof.
  induction filas as [|fila filas IH]; intros st Hnone Hbucket Hlen Hne;
    [done|].
  apply Forall_cons in Hlen as [Hfila Hlen].
  assert (turno fila filas st
    = Ok (set_datos st
            (<[SIN_SECCION :=
                 PList (bucket_of (datos_estructurados st)
                        ++ [subdata_sin_seccion fila])]>
               (datos_estructurados st)))) as Ht.
  { unfold turno.
    assert (clasificar fila filas st = Ok (Fall st)) as ->.
    { assert (clasificar fila filas st = Ok (cabeceras fila filas st))
        as -> by (destruct fila as [|c1 [|c2 fila]]; done).
      unfold cabeceras, open_section. by rewrite Hnone. }
    cbn [mbind result_bind]. unfold procesar, open_section.
    rewrite Hnone. unfold setdefault_append, bucket_of.
    destruct (datos_estructurados st !! SIN_SECCION) as [x|] eqn:E;
      [|done].
    destruct (Hbucket x E) as [l ->]. done. }
  cbn [recorrer]. rewrite Ht. cbn [mbind result_bind].
  destruct filas as [|fila' filas]; [done|].
  rewrite IH; try done.
  - destruct st. unfold set_datos, bucket_of.
    cbn [datos_estructurados seccion_actual seccion_id
         current_table_headers is_in_table_section].
    rewrite lookup_insert_eq, insert_insert_eq, <- app_assoc. done.
  - destruct st. unfold set_datos. cbn [datos_estructurados].
    intros x. rewrite lookup_insert_eq. intros [= <-]. eauto.
Qed.

(** A sheet in which no row has exactly one cell opens no section: the
    result is the [sin_seccion] bucket alone, with one entry for each row in
    the order of the rows, and nothing is raised. *)
Theorem sheet_without_section_rows (filas : list (list cell)) :
  Forall (fun fila => length fila ≠ 1) filas → filas ≠ [] →
  estructurar filas
  = Ok {[ SIN_SECCION := PList (subdata_sin_seccion <$> filas) ]}.
Proof.
  intros Hlen Hne. unfold estructurar.
  by rewrite recorrer_without_section.
Qed.

Lemma sheet_without_section_rows_witness :
  estructurar [[T "Cliente"; T "ACME"]; [CInt 1; CInt 2; CInt 3]]
  = Ok {[ SIN_SECCION :=
            PList (subdata_sin_seccion
                     <$> [[T "Cliente"; T "ACME"];
                          [CInt 1; CInt 2; CInt 3]]) ]}.
Proof.
  apply (sheet_without_section_rows
           [[T "Cliente"; T "ACME"]; [CInt 1; CInt 2; CInt 3]]).
  - repeat constructor; discriminate.
  - discriminate.
Defined.

(** ** What a row may change *)

Lemma only_at_refl (k0 : pystr) (datos : gmap pystr pyval) :
  only_at k0 datos datos.
Proof. by split. Qed.

Lemma only_at_insert (k0 : pystr) (x : pyval) (datos : gmap pystr pyval) :
  only_at k0 datos (<[k0 := x]> datos).
Proof.
  split.
  - intros k Hk. by rewrite lookup_insert_ne.
  - intros _. rewrite lookup_insert_eq. by eexists.
Qed.

Lemma only_at_trans (k0 : pystr) (d1 d2 d3 : gmap pystr pyval) :
  only_at k0 d1 d2 → only_at k0 d2 d3 → only_at k0 d1 d3.
Proof.
  intros [H1 H1'] [H2 H2']. split.
  - intros k Hk. by rewrite H2, H1.
  - auto.
Qed.

Lemma setdefault_append_only_at (k0 : pystr) (x : pyval)
    (datos datos' : gmap pystr pyval) :
  setdefault_append k0 x datos = Ok datos' → only_at k0 datos datos'.
Proof.
  unfold setdefault_append.
  destruct (datos !! k0) as [[]|]; intros [= <-];
    apply only_at_insert.
Qed.

Lemma item_append_only_at (k0 : pystr) (x : pyval)
    (datos datos' : gmap pystr pyval) :
  item_append k0 x datos = Ok datos' → only_at k0 datos datos'.
Proof.
  unfold item_append.
  destruct (datos !! k0) as [[]|]; intros [= <-]; apply only_at_insert.
Qed.

Lemma par_only_at (sec : pystr) (k v : cell)
    (datos datos' : gmap pystr pyval) (subdata subdata' : gmap pystr cell) :
  par sec k v datos subdata = Ok (datos', subdata') →
  only_at sec datos datos'.
Proof.
  unfold par.
  destruct (clave_invalida k v);
    destruct (datos !! sec) as [[c|l|d]|] eqn:E; cbn [mbind result_bind];
    try (destruct (item_append _ _ _) as [datos1|] eqn:E1;
         cbn [mbind result_bind]; intros [= <- <-];
         by eapply item_append_only_at).
  - destruct (d !! VALORES_MISCELANEOS) as [[]|]; intros [= <- <-];
      apply only_at_insert.
  - intros [= <- <-]. apply only_at_refl.
Qed.

Lemma pares_only_at (sec : pystr) (fila : list cell) :
  ∀ (datos datos' : gmap pystr pyval) (subdata subdata' : gmap pystr cell),
    pares sec fila datos subdata = Ok (datos', subdata') →
    only_at sec datos datos'.
Proof.
  induction fila as [| k | k v fila IH] using pair_ind;
    intros datos datos' subdata subdata'; cbn [pares].
  - intros [= <- <-]. apply only_at_refl.
  - apply par_only_at.
  - destruct (par sec k v datos subdata) as [[datos1 subdata1]|] eqn:E;
      cbn [mbind result_bind]; [|done].
    intros H. eapply only_at_trans; [by eapply par_only_at|by eapply IH].
Qed.

Lemma procesar_only_at (fila : list cell) (st st' : state) :
  procesar fila st = Ok st' →
  st' = set_datos st (datos_estructurados st')
  ∧ only_at (default SIN_SECCION (open_section st))
            (datos_estructurados st) (datos_estructurados st').
Proof.
  unfold procesar. destruct (open_section st) as [sec|]; cbn [default].
  - destruct (is_in_table_section st && nonempty (current_table_headers st)).
    + unfold fila_de_tabla. destruct (any_content _).
      * destruct (item_append _ _ _) as [datos1|] eqn:E;
          cbn [mbind result_bind]; intros [= <-].
        split; [done|]. by eapply item_append_only_at.
      * cbn [mbind result_bind]. intros [= <-].
        split; [done|]. apply only_at_refl.
    + unfold fila_de_pares.
      destruct (pares sec fila (datos_estructurados st) ∅)
        as [[datos1 subdata1]|] eqn:E; cbn [mbind result_bind]; [|done].
      intros [= <-]. split; [done|]. cbn [datos_estructurados set_datos].
      eapply only_at_trans; [by eapply pares_only_at|].
      unfold update_subdata. destruct (bool_decide _); [apply only_at_refl|].
      destruct (datos1 !! sec) as [[]|];
        apply only_at_refl || apply only_at_insert.
  - destruct (setdefault_append _ _ _) as [datos1|] eqn:E;
      cbn [mbind result_bind]; intros [= <-].
    split; [done|]. by eapply setdefault_append_only_at.
Qed.

Lemma turno_several_cells (fila : list cell) (rest : list (list cell))
    (st st' : state) :
  length fila ≠ 1 → turno fila rest st = Ok st' →
  seccion_actual st' = seccion_actual st
  ∧ seccion_id st' = seccion_id st
  ∧ only_at (default SIN_SECCION (open_section st))
            (datos_estructurados st) (datos_estructurados st').
Proof.
  intros Hlen. unfold turno.
  assert (clasificar fila rest st = Ok (cabeceras fila rest st)) as ->.
  { destruct fila as [|c1 [|c2 fila]]; done. }
  cbn [mbind result_bind].
  assert (∀ st1, procesar fila st = Ok st1 →
    seccion_actual st1 = seccion_actual st
    ∧ seccion_id st1 = seccion_id st
    ∧ only_at (default SIN_SECCION (open_section st))
              (datos_estructurados st) (datos_estructurados st1)) as Hp.
  { intros st1 [-> H]%procesar_only_at. done. }
  unfold cabeceras in *.
  destruct (open_section st) as [sec|] eqn:Hopen; [|apply Hp].
  destruct ((1 <? length fila) && forallb is_str fila && nonempty rest);
    [|apply Hp].
  destruct (_ || _); [|apply Hp].
  intros [= <-]. split_and!; [done..|]. cbn [datos_estructurados default].
  destruct (is_list_at _ _); [apply only_at_refl|apply only_at_insert].
Qed.

Lemma turno_one_cell (c : cell) (rest : list (list cell))
    (st st' : state) :
  has_content c = true → turno [c] rest st = Ok st' →
  (seccion_id st ≤ seccion_id st')%Z
  ∧ (is_Some (open_section st) → is_Some (open_section st'))
  ∧ ∃ k0, only_at k0 (datos_estructurados st) (datos_estructurados st').
Proof.
  intros Hc. pose proof (has_content_key c Hc) as Hkey.
  destruct (decide (Str.normalize (str c) = SIN_SECCION
                    ∧ open_section st = None)) as [[Hsin Hopen]|Hn].
  - unfold turno, clasificar, nueva_seccion.
    change (Str.replace_space (Str.lower (Str.strip (str c))))
      with (Str.normalize (str c)).
    rewrite Hsin, Hopen, !bool_decide_eq_true_2 by done. cbn [andb].
    destruct (setdefault_append _ _ _) as [datos1|] eqn:E;
      cbn [mbind result_bind]; intros [= <-].
    split_and!; [done| |].
    + by intros [? ?].
    + exists SIN_SECCION. by eapply setdefault_append_only_at.
  - pose proof (turno_new_section c rest st) as H. cbv zeta in H.
    rewrite H by done. intros [= <-].
    cbn [seccion_id datos_estructurados]. split_and!.
    + destruct (bool_decide _); lia.
    + intros _. unfold open_section. cbn [seccion_actual].
      destruct (bool_decide _).
      * destruct (Str.normalize (str c)); [done|by eexists].
      * destruct (Str.normalize (str c)); [done|by eexists].
    + eexists. apply only_at_insert.
Qed.

(** A row changes the entry of one key of the result at most, and it never
    removes a key.  For a row that has not exactly one cell the key is the
    one of the current section, or [sin_seccion] when no section is open,
    and the current section and the counter of the suffixes stay as they
    are: what was gathered under the other sections is out of its reach. *)
Theorem row_changes_one_entry (fila : list cell) (rest : list (list cell))
    (st st' : state) :
  Forall (fun c => has_content c = true) fila →
  turno fila rest st = Ok st' →
  (∃ k0, only_at k0 (datos_estructurados st) (datos_estructurados st'))
  ∧ (∀ k, is_Some (datos_estructurados st !! k) →
          is_Some (datos_estructurados st' !! k))
  ∧ (length fila ≠ 1 →
     seccion_actual st' = seccion_actual st
     ∧ seccion_id st' = seccion_id st
     ∧ only_at (default SIN_SECCION (open_section st))
               (datos_estructurados st) (datos_estructurados st')).
Proof.
  intros Hc Ht.
  assert (∃ k0, only_at k0 (datos_estructurados st)
                        (datos_estructurados st')) as [k0 Hk0].
  { destruct (decide (length fila = 1)) as [Hlen|Hlen].
    - destruct fila as [|c [|? ?]]; try done.
      apply Forall_inv in Hc.
      by destruct (turno_one_cell c rest st st' Hc Ht) as (_ & _ & ?).
    - destruct (turno_several_cells fila rest st st' Hlen Ht)
        as (_ & _ & ?). by eexists. }
  split_and!.
  - by exists k0.
  - intros k Hk. destruct Hk0 as [Hother Hsame].
    destruct (decide (k = k0)) as [->|Hne]; [by apply Hsame|].
    by rewrite Hother.
  - intros Hlen. by apply (turno_several_cells fila rest).
Qed.

Lemma row_changes_one_entry_witness :
  is_Some (datos_estructurados
             (State (<[ lit "a" := PDict {[ lit "x" := PCell (CInt 1) ]} ]>
                       {[ lit "a" := PDict ∅; lit "b" := PList [] ]})
                    (Some (lit "a")) 1 [] false) !! lit "b").
Proof.
  refine (proj1 (proj2 (row_changes_one_entry [T "x"; CInt 1] []
    (State {[ lit "a" := PDict ∅; lit "b" := PList [] ]}
           (Some (lit "a")) 1 [] false)
    (State (<[ lit "a" := PDict {[ lit "x" := PCell (CInt 1) ]} ]>
              {[ lit "a" := PDict ∅; lit "b" := PList [] ]})
           (Some (lit "a")) 1 [] false) _ _)) (lit "b") _).
  - repeat constructor.
  - vm_compute. reflexivity.
  - eexists. reflexivity.
Defined.

(** Once a section is open, a section is open after every later row whose
    cells have content, and the counter of the suffixes never goes down: no
    later row is stored as a row without section. *)
Theorem section_stays_open (filas : list (list cell)) :
  ∀ st st', is_Some (open_section st) →
    Forall (Forall (fun c => has_content c = true)) filas →
    recorrer filas st = Ok st' →
    is_Some (open_section st') ∧ (seccion_id st ≤ seccion_id st')%Z.
Proof.
  induction filas as [|fila filas IH]; intros st st' Hopen Hc.
  - intros [= <-]. split; [done|lia].
  - apply Forall_cons in Hc as [Hfila Hc]. cbn [recorrer].
    destruct (turno fila filas st) as [st1|] eqn:Ht;
      cbn [mbind result_bind]; [|done].
    intros Hrec.
    assert (is_Some (open_section st1)
            ∧ (seccion_id st ≤ seccion_id st1)%Z) as [Hopen1 Hid1].
    { destruct (decide (length fila = 1)) as [Hlen|Hlen].
      - destruct fila as [|c [|? ?]]; try done.
        apply Forall_inv in Hfila.
        destruct (turno_one_cell c filas st st1 Hfila Ht) as (? & ? & _).
        auto.
      - destruct (turno_several_cells fila filas st st1 Hlen Ht)
          as (Hsec & Hid & _).
        unfold open_section in *. rewrite Hsec, Hid. split; [done|lia]. }
    destruct (IH st1 st' Hopen1 Hc Hrec) as [? ?]. split; [done|lia].
Qed.

Lemma section_stays_open_witness :
  is_Some (open_section
             (State {[ lit "a" := PDict {[ lit "x" := PCell (CInt 1) ]} ]}
                    (Some (lit "a")) 1 [] false))
  ∧ (1 ≤ 1)%Z.
Proof.
  refine (section_stays_open [[T "x"; CInt 1]]
    (State {[ lit "a" := PDict ∅ ]} (Some (lit "a")) 1 [] false)
    (State {[ lit "a" := PDict {[ lit "x" := PCell (CInt 1) ]} ]}
           (Some (lit "a")) 1 [] false) _ _ _).
  - by eexists.
  - repeat constructor.
  - vm_compute. reflexivity.
Defined.

(** ** Normalized text *)

Lemma rev_is_reverse (u : pystr) : rev u = reverse u.
Proof. by rewrite rev_alt. Qed.

Lemma is_space_false (c : N) :
  Str.is_space c = false
  ↔ ¬ ((9 ≤ c ∧ c ≤ 13) ∨ (28 ≤ c ∧ c ≤ 32) ∨ c = 133 ∨ c = 160
       ∨ c = 5760 ∨ (8192 ≤ c ∧ c ≤ 8202) ∨ c = 8232 ∨ c = 8233
       ∨ c = 8239 ∨ c = 8287 ∨ c = 12288)%N.
Proof.
  rewrite <- not_true_iff_false. unfold Str.is_space.
  rewrite !orb_true_iff, !andb_true_iff, !N.leb_le, !N.eqb_eq. tauto.
Qed.

Lemma lower_char_spec (c : N) :
  (((65 ≤ c ∧ c ≤ 90) ∨ (192 ≤ c ∧ c ≤ 222 ∧ c ≠ 215))
   ∧ Str.lower_char c = c + 32)%N
  ∨ (¬ ((65 ≤ c ∧ c ≤ 90) ∨ (192 ≤ c ∧ c ≤ 222 ∧ c ≠ 215))
     ∧ Str.lower_char c = c)%N.
Proof.
  unfold Str.lower_char.
  destruct (_ || _) eqn:E.
  - left. split; [|done].
    rewrite !orb_true_iff, !andb_true_iff, !N.leb_le, negb_true_iff,
      N.eqb_neq in E. tauto.
  - right. split; [|done]. apply not_true_iff_false in E.
    rewrite !orb_true_iff, !andb_true_iff, !N.leb_le, negb_true_iff,
      N.eqb_neq in E. tauto.
Qed.


Lemma normalize_fmap (s : pystr) :
  Str.normalize s
  = (fun c => if (Str.lower_char c =? 32)%N then 95%N
              else Str.lower_char c) <$> Str.strip s.
Proof.
  unfold Str.normalize, Str.replace_space, Str.lower.
  by rewrite <- list_fmap_compose.
Qed.


Lemma lstrip_fixed (u : pystr) :
  (∀ c, head u = Some c → Str.is_space c = false) → Str.lstrip u = u.
Proof.
  destruct u as [|a u]; [done|]. intros H. cbn [Str.lstrip].
  by rewrite (H a).
Qed.



Lemma strip_fixed (u : pystr) : trimmed u → Str.strip u = u.
Proof.
  intros [Hhead Hlast]. unfold Str.strip, Str.rstrip.
  rewrite (lstrip_fixed u) by done. rewrite !rev_is_reverse.
  rewrite lstrip_fixed, reverse_involutive; [done|].
  intros c. rewrite head_reverse. apply Hlast.
Qed.



Lemma string_of_uint_digits (d : Decimal.uint) :
  Forall digit_or_minus (lit (NilEmpty.string_of_uint d)).
Proof.
  induction d; cbn [NilEmpty.string_of_uint]; [constructor|..];
    (constructor; [left; vm_compute; split; discriminate|exact IHd]).
Qed.

Lemma of_Z_digits (z : Z) :
  Str.of_Z z ≠ [] ∧ Forall digit_or_minus (Str.of_Z z).
Proof.
  assert (∀ d, lit (NilZero.string_of_uint d) ≠ []
               ∧ Forall digit_or_minus (lit (NilZero.string_of_uint d)))
    as Hu.
  { intros d. split.
    - by destruct d.
    - destruct d; try apply string_of_uint_digits.
      constructor; [|constructor]. left. vm_compute. split; discriminate. }
  unfold Str.of_Z. destruct (Z.to_int z) as [d|d];
    cbn [NilZero.string_of_int].
  - apply Hu.
  - split; [done|]. constructor; [by right|apply Hu].
Qed.

Lemma digits_fixed (u : pystr) :
  Forall digit_or_minus u → Str.normalize u = u.
Proof.
  intros Hu.
  assert (Str.strip u = u) as Hs.
  { apply strip_fixed. split; intros c Hc.
    - apply head_Some_elem_of in Hc.
      rewrite Forall_forall in Hu. specialize (Hu c Hc).
      apply is_space_false. unfold digit_or_minus in Hu. lia.
    - apply last_Some_elem_of in Hc.
      rewrite Forall_forall in Hu. specialize (Hu c Hc).
      apply is_space_false. unfold digit_or_minus in Hu. lia. }
  rewrite normalize_fmap, Hs.
  rewrite <- (list_fmap_id u) at 2. apply list_fmap_ext.
  intros i c Hc. apply list_elem_of_lookup_2 in Hc.
  rewrite Forall_forall in Hu. specialize (Hu c Hc).
  unfold digit_or_minus in Hu.
  destruct (lower_char_spec c) as [[H ->]|[H ->]]; [lia|].
  destruct (N.eqb_spec c 32); [lia|done].
Qed.

Lemma integer_row_content (z : Z) : has_content (CInt z) = true.
Proof.
  destruct (of_Z_digits z) as [Hne Hdigits].
  cbn [has_content str]. unfold Str.non_blank.
  pose proof (digits_fixed _ Hdigits) as H.
  apply (f_equal length) in H. rewrite normalize_length in H.
  destruct (Str.strip (Str.of_Z z)); [|done].
  by destruct (Str.of_Z z).
Qed.

(** A row whose one cell is an integer opens the section named by the
    decimal text of the integer, with the suffix when that key is taken,
    and leaves the integer, with a null, as the first rejected pair of the
    new section; it is never stored as a row without section. *)
Theorem integer_row_opens_section (z : Z) (rest : list (list cell))
    (st : state) :
  let taken :=
    bool_decide (is_Some (datos_estructurados st !! Str.of_Z z)) in
  let key' :=
    if taken then Str.of_Z z ++ lit "_" ++ Str.of_Z (seccion_id st)
    else Str.of_Z z in
  Str.normalize (str (CInt z)) = Str.of_Z z
  ∧ has_content (CInt z) = true
  ∧ turno [CInt z] rest st
    = Ok (State (<[key' := PDict {[ VALORES_MISCELANEOS :=
                                      PList [PCell (CInt z); PCell CNone] ]}]>
                   (datos_estructurados st))
                (Some key')
                (if taken then (seccion_id st + 1)%Z else seccion_id st)
                [] false).
Proof.
  intros taken key'.
  destruct (of_Z_digits z) as [Hne Hdigits].
  assert (Str.normalize (str (CInt z)) = Str.of_Z z) as Hnorm.
  { by apply digits_fixed. }
  split_and!; [done| |].
  - cbn [has_content str]. unfold Str.non_blank.
    pose proof (digits_fixed _ Hdigits) as H.
    apply (f_equal length) in H. rewrite normalize_length in H.
    destruct (Str.strip (Str.of_Z z)); [|done].
    by destruct (Str.of_Z z).
  - pose proof (turno_new_section (CInt z) rest st) as H. cbv zeta in H.
    rewrite Hnorm in H. rewrite H; [done|done|].
    intros [Hsin _]. rewrite Hsin in Hdigits.
    apply Forall_inv in Hdigits. unfold digit_or_minus in Hdigits.
    vm_compute in Hdigits. destruct Hdigits as [[_ H']|H']; [|done].
    by apply H'.
Qed.

(** ** Rows of one cell, in general *)



(** ** The whole sheet and the workbook *)

Lemma has_content_cleaned (c : cell) :
  keep_cell c = true → cell_wf c → has_content c = true.
Proof.
  destruct c as [s|z|r|r|]; cbn [keep_cell cell_wf has_content str];
    try done.
  intros _ _. apply (integer_row_content z).
Qed.

(** The pass over a sheet returns a result, whatever the rows read from the
    sheet are, as long as no pair of a cleaned row is accepted under the key
    [valores_miscelaneos]: rows of any length, absent cells anywhere, blank
    rows and repeated section names raise nothing. *)
Theorem procesar_hoja_returns (rows : list (list cell)) :
  Forall (Forall cell_wf) rows →
  Forall (fun fila => no_reserved_key fila = true) (filas_crudas rows) →
  ∃ datos, procesar_hoja rows = Ok datos.
Proof.
  intros Hwf Hfree. apply estructurar_regular.
  apply Forall_forall. intros fila Hfila.
  rewrite Forall_forall in Hfree.
  pose proof Hfila as Hfila'.
  apply filas_crudas_elem in Hfila' as (Hne & row & Hrow & ->).
  split_and!; [done| |by apply Hfree].
  apply Forall_forall. intros c Hc. apply has_content_cleaned.
  - pose proof Hc as Hc'. apply list_elem_of_In in Hc'.
    by apply List.filter_In in Hc' as [_ Hc'].
  - rewrite Forall_forall in Hwf. specialize (Hwf row Hrow).
    rewrite Forall_forall in Hwf. apply Hwf.
    apply list_elem_of_In in Hc. apply List.filter_In in Hc as [Hc _].
    by apply list_elem_of_In.
Qed.

Lemma procesar_hoja_returns_witness :
  ∃ datos,
    procesar_hoja [[CNone; T " "]; [CNone; T "Sec"; CNone];
                   [T "Modelo"; CNone; T "G3.2"]; [CFloat (lit "1.5")]]
    = Ok datos.
Proof.
  apply (procesar_hoja_returns
           [[CNone; T " "]; [CNone; T "Sec"; CNone];
            [T "Modelo"; CNone; T "G3.2"]; [CFloat (lit "1.5")]]).
  - repeat constructor.
  - change (filas_crudas _)
      with [[T "Sec"]; [T "Modelo"; T "G3.2"]; [CFloat (lit "1.5")]].
    repeat (constructor; [vm_compute; reflexivity|]). constructor.
Defined.

Lemma procesar_libro_spec (hojas : list (pystr * list (list cell))) :
  ∀ ArchivoPrincipal : gmap pystr (gmap pystr pyval),
    NoDup hojas.*1 →
    (∀ hoja rows, (hoja, rows) ∈ hojas → ∃ d, procesar_hoja rows = Ok d) →
    ∃ m, procesar_libro hojas ArchivoPrincipal = Ok m
      ∧ (∀ hoja rows, (hoja, rows) ∈ hojas →
           ∃ d, procesar_hoja rows = Ok d ∧ m !! hoja = Some d)
      ∧ (∀ hoja, hoja ∉ hojas.*1 → m !! hoja = ArchivoPrincipal !! hoja).
Proof.
  induction hojas as [|[hoja rows] hojas IH]; intros AP Hnd Hok.
  - exists AP. split_and!; [done| |done].
    by intros ? ? ?%elem_of_nil.
  - cbn [fmap list_fmap fst] in Hnd. apply NoDup_cons in Hnd as [Hnew Hnd].
    destruct (Hok hoja rows) as [d Hd]; [by left|].
    destruct (IH (<[hoja := d]> AP) Hnd) as (m & Hm & Hin & Hout).
    { intros h r Hr. apply (Hok h r). by right. }
    exists m. cbn [procesar_libro]. rewrite Hd. cbn [mbind result_bind].
    split_and!; [done| |].
    + intros h r [[= -> ->]|Hr]%elem_of_cons.
      * exists d. split; [done|]. rewrite Hout by done.
        apply lookup_insert_eq.
      * by apply Hin.
    + intros h Hh. cbn [fmap list_fmap fst] in Hh.
      apply not_elem_of_cons in Hh as [Hne Hh].
      rewrite Hout by done. by rewrite lookup_insert_ne.
Qed.

Lemma procesar_libro_raises (hojas : list (pystr * list (list cell))) :
  ∀ (ArchivoPrincipal : gmap pystr (gmap pystr pyval)) hoja rows e,
    (hoja, rows) ∈ hojas → procesar_hoja rows = Raise e →
    ∃ e', procesar_libro hojas ArchivoPrincipal = Raise e'.
Proof.
  induction hojas as [|[h r] hojas IH]; intros AP hoja rows e Hin He.
  - by apply elem_of_nil in Hin.
  - cbn [procesar_libro].
    destruct (procesar_hoja r) as [d|e'] eqn:Hr; cbn [mbind result_bind];
      [|by eexists].
    apply elem_of_cons in Hin as [[= -> ->]|Hin]; [congruence|].
    by eapply IH.
Qed.

(** The sheets of a workbook are processed one by one, each from a fresh
    state: when the pass returns for every sheet, the result has exactly
    the names of the sheets as keys and under each name the result of that
    sheet alone; when the pass raises for one sheet, no result is built for
    any sheet. *)
Theorem procesar_libro_sheets (hojas : list (pystr * list (list cell))) :
  NoDup hojas.*1 →
  ((∀ hoja rows, (hoja, rows) ∈ hojas → ∃ d, procesar_hoja rows = Ok d) →
   ∃ m, procesar_libro hojas ∅ = Ok m
     ∧ (∀ hoja rows, (hoja, rows) ∈ hojas →
          ∃ d, procesar_hoja rows = Ok d ∧ m !! hoja = Some d)
     ∧ (∀ hoja, is_Some (m !! hoja) → hoja ∈ hojas.*1))
  ∧ (∀ hoja rows e, (hoja, rows) ∈ hojas → procesar_hoja rows = Raise e →
     ∃ e', procesar_libro hojas ∅ = Raise e').
Proof.
  intros Hnd. split.
  - intros Hok.
    destruct (procesar_libro_spec hojas ∅ Hnd Hok) as (m & Hm & Hin & Hout).
    exists m. split_and!; [done..|].
    intros hoja Hsome. destruct (decide (hoja ∈ hojas.*1)); [done|].
    rewrite Hout, lookup_empty in Hsome by done. by destruct Hsome.
  - intros hoja rows e. apply procesar_libro_raises.
Qed.

Lemma procesar_libro_sheets_witness :
  ∃ e', procesar_libro
          [(lit "Hoja1", [[T "Cliente"; T "ACME"]]);
           (lit "Hoja2", [[T "Sec"]; [T "valores miscelaneos"; CInt 5];
                          [CInt 1; CInt 2]])] ∅
        = Raise e'.
Proof.
  refine (proj2 (procesar_libro_sheets
    [(lit "Hoja1", [[T "Cliente"; T "ACME"]]);
     (lit "Hoja2", [[T "Sec"]; [T "valores miscelaneos"; CInt 5];
                    [CInt 1; CInt 2]])] _)
    (lit "Hoja2") [[T "Sec"]; [T "valores miscelaneos"; CInt 5];
                   [CInt 1; CInt 2]] AttributeError _ _).
  - repeat constructor; vm_compute; intros H; inversion H; subst;
      try discriminate; inversion H2.
  - right. left.
  - vm_compute. reflexivity.
Defined.


